(** * Synchronizer.py: one-way folder mirroring

    A shallow embedding of [setup_logging], [compute_md5], [sync_folders] and
    [main] from [src/Synchronizer.py], together with the parts of the Python
    runtime they call ([hashlib.md5], [open]/[read], [os.path.exists],
    [os.path.dirname], [os.makedirs], [os.walk], [shutil.copy2], [os.remove],
    [shutil.rmtree], [logging], [time.sleep]).

    Modelling choices, all visible in the definitions below:
    - the file system is one finite map from absolute paths (lists of
      components) to inodes; a path string is abstracted to its component
      list, so [os.path.join] is list append and [os.path.relpath] strips the
      start directory;
    - a file carries its bytes, a modification time and read/write permission
      bits; directories are always listable and writable, there are no
      symbolic links, and a read that follows a successful [open] does not
      fail;
    - every primitive either returns or raises a Python exception; the
      interpreter state (file system, log, mutating calls made so far) is
      threaded through a small state-and-exception monad;
    - [os.walk] is the lazy top-down generator: a directory is listed only
      when the walk reaches it, after the loop body has run for everything
      that comes before it; a directory yields its entries in the order of
      the keys of the map, and no statement below depends on that order;
    - the walk carries fuel that bounds its depth; the passes are shown never
      to run out of it ([forward_walk], [reverse_walk], [sync_folders_runs]);
    - the statements about whole passes take a well-formed file system
      ([wf]) and two roots neither of which lies inside the other
      ([apart]);
    - the log file is the one path that reaches the program as a name which
      may have an empty directory part, so [setup_logging] takes a
      [pathname], absolute or relative to the working directory, while the
      two roots stay resolved paths; [main] takes the values
      [parse_arguments] returns ([argparse] itself is not modelled) and runs
      its endless loop for a given number of rounds; the lines written
      through the log handler are kept in the journal of the program and do
      not make the log file grow in the file system. *)

From Stdlib Require Import ZArith Strings.Byte Ascii String.
From stdpp Require Import gmap strings list fin_maps.

(** ** hashlib.md5 *)

Module MD5.

Local Open Scope Z_scope.

Definition word := Z.
Definition mask32 : Z := 0xFFFFFFFF.
Definition wrap (x : Z) : word := Z.land x mask32.
Definition add32 (x y : word) : word := wrap (x + y).
Definition not32 (x : word) : word := Z.lxor x mask32.
Definition rotl32 (x : word) (n : Z) : word :=
  wrap (Z.lor (Z.shiftl x n) (Z.shiftr x (32 - n))).

Definition shifts : list Z :=
  [7; 12; 17; 22; 7; 12; 17; 22; 7; 12; 17; 22; 7; 12; 17; 22;
   5; 9; 14; 20; 5; 9; 14; 20; 5; 9; 14; 20; 5; 9; 14; 20;
   4; 11; 16; 23; 4; 11; 16; 23; 4; 11; 16; 23; 4; 11; 16; 23;
   6; 10; 15; 21; 6; 10; 15; 21; 6; 10; 15; 21; 6; 10; 15; 21].

Definition sines : list Z :=
  [0xd76aa478; 0xe8c7b756; 0x242070db; 0xc1bdceee;
   0xf57c0faf; 0x4787c62a; 0xa8304613; 0xfd469501;
   0x698098d8; 0x8b44f7af; 0xffff5bb1; 0x895cd7be;
   0x6b901122; 0xfd987193; 0xa679438e; 0x49b40821;
   0xf61e2562; 0xc040b340; 0x265e5a51; 0xe9b6c7aa;
   0xd62f105d; 0x02441453; 0xd8a1e681; 0xe7d3fbc8;
   0x21e1cde6; 0xc33707d6; 0xf4d50d87; 0x455a14ed;
   0xa9e3e905; 0xfcefa3f8; 0x676f02d9; 0x8d2a4c8a;
   0xfffa3942; 0x8771f681; 0x6d9d6122; 0xfde5380c;
   0xa4beea44; 0x4bdecfa9; 0xf6bb4b60; 0xbebfbc70;
   0x289b7ec6; 0xeaa127fa; 0xd4ef3085; 0x04881d05;
   0xd9d4d039; 0xe6db99e5; 0x1fa27cf8; 0xc4ac5665;
   0xf4292244; 0x432aff97; 0xab9423a7; 0xfc93a039;
   0x655b59c3; 0x8f0ccc92; 0xffeff47d; 0x85845dd1;
   0x6fa87e4f; 0xfe2ce6e0; 0xa3014314; 0x4e0811a1;
   0xf7537e82; 0xbd3af235; 0x2ad7d2bb; 0xeb86d391].

(** The four chaining words A, B, C, D. *)
Record chain := Chain { cA : word; cB : word; cC : word; cD : word }.

Definition chain_init : chain :=
  Chain 0x67452301 0xefcdab89 0x98badcfe 0x10325476.

Definition byte_val (b : byte) : Z := Z.of_N (Byte.to_N b).

(** Little-endian 32-bit word number [g] of a block. *)
Definition word_at (block : list byte) (g : nat) : word :=
  let b k := byte_val (nth (4 * g + k) block x00) in
  Z.lor (b 0%nat)
    (Z.lor (Z.shiftl (b 1%nat) 8)
       (Z.lor (Z.shiftl (b 2%nat) 16) (Z.shiftl (b 3%nat) 24))).

Definition round_fun (i : nat) (b c d : word) : word * nat :=
  if (i <? 16)%nat then (Z.lor (Z.land b c) (Z.land (not32 b) d), i)
  else if (i <? 32)%nat then
    (Z.lor (Z.land d b) (Z.land (not32 d) c), ((5 * i + 1) mod 16)%nat)
  else if (i <? 48)%nat then (Z.lxor b (Z.lxor c d), ((3 * i + 5) mod 16)%nat)
  else (Z.lxor c (Z.lor b (not32 d)), ((7 * i) mod 16)%nat).

Definition step (block : list byte) (st : chain) (i : nat) : chain :=
  let '(f, g) := round_fun i (cB st) (cC st) (cD st) in
  let f' := add32 (add32 (add32 f (cA st)) (nth i sines 0)) (word_at block g) in
  Chain (cD st) (add32 (cB st) (rotl32 f' (nth i shifts 0))) (cB st) (cC st).

(** One 64-byte block folded into the chaining value. *)
Definition compress (st : chain) (block : list byte) : chain :=
  let r := fold_left (step block) (seq 0 64) st in
  Chain (add32 (cA st) (cA r)) (add32 (cB st) (cB r))
        (add32 (cC st) (cC r)) (add32 (cD st) (cD r)).

(** Consume as many whole 64-byte blocks as the input holds and give back the
    remainder. The fuel bounds the number of blocks. *)
Fixpoint absorb_fuel (fuel : nat) (st : chain) (data : list byte)
  : chain * list byte :=
  match fuel with
  | O => (st, data)
  | S k =>
      if (length data <? 64)%nat then (st, data)
      else absorb_fuel k (compress st (take 64 data)) (drop 64 data)
  end.

Definition absorb (st : chain) (data : list byte) : chain * list byte :=
  absorb_fuel (length data) st data.

(** The hash object: chaining value, bytes not yet forming a whole block, and
    the number of bytes fed so far. *)
Record md5 := Md5 { chaining : chain; pending : list byte; fed : nat }.

(** [hashlib.md5()] *)
Definition new : md5 := Md5 chain_init [] 0.

(** [h.update(data)] *)
Definition update (h : md5) (data : list byte) : md5 :=
  let '(st, rest) := absorb (chaining h) (pending h ++ data) in
  Md5 st rest (fed h + length data).

Definition byte_of_Z (z : Z) : byte :=
  default x00 (Byte.of_N (Z.to_N (Z.land z 0xFF))).

(** [n] little-endian bytes of [z]. *)
Fixpoint le_bytes (n : nat) (z : Z) : list byte :=
  match n with
  | O => []
  | S k => byte_of_Z z :: le_bytes k (Z.shiftr z 8)
  end.

(** The padding of a message of [len] bytes: 0x80, zeros up to 56 modulo 64,
    then the bit length on 64 bits, little-endian. *)
Definition padding (len : nat) : list byte :=
  let zeros := ((119 - len mod 64) mod 64)%nat in
  x80 :: replicate zeros x00 ++ le_bytes 8 (Z.land (8 * Z.of_nat len) (2 ^ 64 - 1)).

Definition hex_digit (n : Z) : ascii :=
  nth (Z.to_nat n)
    ["0"; "1"; "2"; "3"; "4"; "5"; "6"; "7"; "8"; "9";
     "a"; "b"; "c"; "d"; "e"; "f"]%char "0"%char.

Definition hex_byte (b : byte) : list ascii :=
  [hex_digit (Z.shiftr (byte_val b) 4); hex_digit (Z.land (byte_val b) 15)].

Definition digest_bytes (st : chain) : list byte :=
  le_bytes 4 (cA st) ++ le_bytes 4 (cB st) ++ le_bytes 4 (cC st)
    ++ le_bytes 4 (cD st).

Definition hex_of_chain (st : chain) : string :=
  string_of_list_ascii (concat (map hex_byte (digest_bytes st))).

(** [h.hexdigest()]: pads a copy of the object, the object itself is left as
    it is. *)
Definition hexdigest (h : md5) : string :=
  hex_of_chain (absorb (chaining h) (pending h ++ padding (fed h))).1.

(** The MD5 digest of a whole message in one go (RFC 1321): pad, cut into
    blocks, fold. This is the reference the streaming object is compared
    with. *)
Definition md5_hex (msg : list byte) : string :=
  hex_of_chain (absorb chain_init (msg ++ padding (length msg))).1.

End MD5.

Global Arguments MD5.compress : simpl never.
Global Arguments MD5.absorb : simpl never.
Global Arguments MD5.hexdigest : simpl never.
Global Arguments MD5.md5_hex : simpl never.
Global Opaque MD5.compress.

(** ** The file system *)

Abbreviation path := (list string).

(** A regular file: its bytes, its modification time, and whether it may be
    opened for reading and for writing. *)
Record file := File {
  content : list byte;
  mtime : Z;
  readable : bool;
  writable : bool
}.

(** What a path leads to: a regular file or a directory. *)
Inductive inode :=
| IFile (f : file)
| IDir.

Abbreviation filesystem := (gmap (list string) inode).

(** The Python exceptions the primitives raise. *)
Inductive exn :=
| FileNotFoundError
| FileExistsError
| NotADirectoryError
| IsADirectoryError
| PermissionError
| SameFileError.

Global Instance exn_eq_dec : EqDecision exn.
Proof. solve_decision. Defined.

(** Resolving a missing path fails with ENOTDIR when a file sits where a
    directory is needed on the way, and with ENOENT otherwise. *)
Fixpoint blocked_by_file (m : filesystem) (cur rest : path) : bool :=
  match rest with
  | [] => false
  | x :: rest' =>
      match m !! cur with
      | Some (IFile _) => true
      | _ => blocked_by_file m (cur ++ [x]) rest'
      end
  end.

Definition errno_missing (m : filesystem) (p : path) : exn :=
  if blocked_by_file m [] p then NotADirectoryError else FileNotFoundError.

(** [os.path.dirname] and [os.path.basename] on component lists. *)
Definition dirname (p : path) : path := removelast p.
Definition basename (p : path) : string := List.last p ""%string.

(** [os.path.join(a, rel)] and [os.path.relpath(p, start)] for [p] below
    [start]. *)
Definition join (a rel : path) : path := a ++ rel.
Definition relpath (p start : path) : path := drop (length start) p.

(** [os.path.exists(p)] *)
Definition path_exists (m : filesystem) (p : path) : bool :=
  bool_decide (is_Some (m !! p)).

(** [open(p, "rb")] followed by reading: the file, or the exception of
    [open]. *)
Definition open_rb (m : filesystem) (p : path) : exn + file :=
  match m !! p with
  | None => inl (errno_missing m p)
  | Some IDir => inl IsADirectoryError
  | Some (IFile f) => if readable f then inr f else inl PermissionError
  end.

(** [open(p, "wb")]: whether the file can be created or truncated. *)
Definition open_wb (m : filesystem) (p : path) : exn + unit :=
  match m !! p with
  | Some IDir => inl IsADirectoryError
  | Some (IFile f) => if writable f then inr tt else inl PermissionError
  | None =>
      match p with
      | [] => inl FileNotFoundError
      | _ =>
          match m !! dirname p with
          | Some IDir => inr tt
          | Some (IFile _) => inl NotADirectoryError
          | None => inl (errno_missing m p)
          end
      end
  end.

(** [os.mkdir(p)] *)
Definition mkdir (m : filesystem) (p : path) : exn + filesystem :=
  match m !! p with
  | Some _ => inl FileExistsError
  | None =>
      match p with
      | [] => inl FileNotFoundError
      | _ =>
          match m !! dirname p with
          | Some IDir => inr (<[p := IDir]> m)
          | Some (IFile _) => inl NotADirectoryError
          | None => inl (errno_missing m p)
          end
      end
  end.

(** [os.makedirs(p)] with [exist_ok=False]: the missing parents first, by
    recursion on the path from its last component; a [FileExistsError] of the
    recursive call is swallowed, any other exception propagates. The argument
    is the reversed path. *)
Fixpoint makedirs_rev (m : filesystem) (rp : list string)
  : exn + filesystem :=
  match rp with
  | [] => mkdir m []
  | _ :: rhead =>
      let head := rev rhead in
      let parents :=
        if path_exists m head then inr m
        else match makedirs_rev m rhead with
             | inl FileExistsError => inr m
             | r => r
             end in
      match parents with
      | inl e => inl e
      | inr m1 => mkdir m1 (rev rp)
      end
  end.

Definition makedirs (m : filesystem) (p : path) : exn + filesystem :=
  makedirs_rev m (rev p).

(** [shutil.copy2(src, dst)]: a directory destination means the file of the
    same base name inside it; [copyfile] refuses to copy a file onto itself,
    opens the source for reading, then the destination for writing;
    [copystat] carries the permission bits and the modification time over. *)
Definition copy2 (m : filesystem) (src dst : path) : exn + filesystem :=
  let dst' :=
    match m !! dst with
    | Some IDir => join dst [basename src]
    | _ => dst
    end in
  if bool_decide (src = dst') && path_exists m src then inl SameFileError
  else
    match open_rb m src with
    | inl e => inl e
    | inr f =>
        match open_wb m dst' with
        | inl e => inl e
        | inr _ => inr (<[dst' := IFile f]> m)
        end
    end.

(** [os.remove(p)] *)
Definition remove (m : filesystem) (p : path) : exn + filesystem :=
  match m !! p with
  | Some (IFile _) => inr (delete p m)
  | Some IDir => inl IsADirectoryError
  | None => inl (errno_missing m p)
  end.

(** [shutil.rmtree(p)]: the directory and everything below it. *)
Definition rmtree (m : filesystem) (p : path) : exn + filesystem :=
  match m !! p with
  | Some IDir => inr (filter (λ kv, ¬ p `prefix_of` kv.1) m)
  | Some (IFile _) => inl NotADirectoryError
  | None => inl (errno_missing m p)
  end.

(** The name of [k] inside directory [top], when [k] is an entry of it. *)
Definition child_name (top k : path) : option string :=
  match drop (length top) k with
  | [x] => if bool_decide (take (length top) k = top) then Some x else None
  | _ => None
  end.

(** The entries of directory [top], in the order the file system yields
    them. *)
Definition entries (m : filesystem) (top : path) : list (string * inode) :=
  omap (λ kv, x ← child_name top kv.1; Some (x, kv.2)) (map_to_list m).

Definition is_dir (n : inode) : bool :=
  match n with IDir => true | IFile _ => false end.

(** [os.scandir(top)] as [os.walk] uses it: the names of the subdirectories
    and the names of the other entries; [None] when [top] cannot be listed. *)
Definition scandir (m : filesystem) (top : path)
  : option (list string * list string) :=
  match m !! top with
  | Some IDir =>
      let es := entries m top in
      Some ((filter (λ e, is_dir e.2 = true) es).*1,
            (filter (λ e, is_dir e.2 = false) es).*1)
  | _ => None
  end.

(** ** Interpreter state, logging and control flow *)

Inductive level := INFO | ERROR.

(** The messages of the program, one constructor per format string. *)
Inductive message :=
| Md5NotFound (p : path)
| Md5Error (p : path) (e : exn)
| ReplicaCreated (p : path)
| CreatePermissionDenied (p : path)
| CreateError (p : path) (e : exn)
| DirCreated (p : path)
| Synchronizing (src dst : path)
| SyncError (src dst : path) (e : exn)
| FileRemoved (p : path)
| RemoveFileError (p : path) (e : exn)
| DirRemoved (p : path)
| RemoveDirError (p : path) (e : exn).

(** The calls that can change the file system. *)
Inductive call :=
| CallMakedirs (p : path)
| CallCopy2 (src dst : path)
| CallRemove (p : path)
| CallRmtree (p : path).

Record world := World {
  fs : filesystem;
  log : list (level * message);
  calls : list call
}.

Inductive outcome (A : Type) :=
| Ret (a : A)
| Raise (e : exn)
| OutOfFuel.
Arguments Ret {A} a.
Arguments Raise {A} e.
Arguments OutOfFuel {A}.

Definition M (A : Type) : Type := world → world * outcome A.

Definition ret {A} (a : A) : M A := λ w, (w, Ret a).
Definition raise {A} (e : exn) : M A := λ w, (w, Raise e).
Definition bind {A B} (c : M A) (k : A → M B) : M B :=
  λ w, match c w with
       | (w', Ret a) => k a w'
       | (w', Raise e) => (w', Raise e)
       | (w', OutOfFuel) => (w', OutOfFuel)
       end.

Global Instance M_ret : MRet M := @ret.
Global Instance M_bind : MBind M := λ A B k c, bind c k.

(** [try: body / except Exception as e: handler e] *)
Definition try_except {A} (body : M A) (handler : exn → M A) : M A :=
  λ w, match body w with
       | (w', Raise e) => handler e w'
       | r => r
       end.

(** [for x in l: body x] *)
Fixpoint for_each {A} (l : list A) (body : A → M unit) : M unit :=
  match l with
  | [] => ret tt
  | x :: l' => body x ;; for_each l' body
  end.

Definition add_log (w : world) (lv : level) (msg : message) : world :=
  World (fs w) (log w ++ [(lv, msg)]) (calls w).
Definition add_call (w : world) (c : call) : world :=
  World (fs w) (log w) (calls w ++ [c]).
Definition set_fs (w : world) (m : filesystem) : world :=
  World m (log w) (calls w).

Definition logging_info (msg : message) : M unit :=
  λ w, (add_log w INFO msg, Ret tt).
Definition logging_error (msg : message) : M unit :=
  λ w, (add_log w ERROR msg, Ret tt).

Definition os_path_exists (p : path) : M bool :=
  λ w, (w, Ret (path_exists (fs w) p)).

(** A mutating primitive: the call is recorded, then it changes the file
    system or raises. *)
Definition syscall (c : call) (op : filesystem → exn + filesystem) : M unit :=
  λ w, match op (fs w) with
       | inl e => (add_call w c, Raise e)
       | inr m' => (set_fs (add_call w c) m', Ret tt)
       end.

Definition os_makedirs (p : path) : M unit :=
  syscall (CallMakedirs p) (λ m, makedirs m p).
Definition shutil_copy2 (src dst : path) : M unit :=
  syscall (CallCopy2 src dst) (λ m, copy2 m src dst).
Definition os_remove (p : path) : M unit :=
  syscall (CallRemove p) (λ m, remove m p).
Definition shutil_rmtree (p : path) : M unit :=
  syscall (CallRmtree p) (λ m, rmtree m p).

(** [with open(p, "rb") as f:] giving the bytes [f] will deliver. *)
Definition open_read (p : path) : M (list byte) :=
  λ w, match open_rb (fs w) p with
       | inl e => (w, Raise e)
       | inr f => (w, Ret (content f))
       end.

(** [for root, dirs, files in os.walk(top): body], top-down and with
    [onerror=None]: the generator lists [top], yields it (the body runs),
    and only then walks the subdirectories it listed, each on the file
    system as the body and the earlier subtrees left it. A directory that
    cannot be listed yields nothing, without a word. The fuel bounds the
    depth of the walk. *)
Fixpoint walk (fuel : nat) (top : path)
    (body : path → list string → list string → M unit) : M unit :=
  λ w, match scandir (fs w) top with
       | None => (w, Ret tt)
       | Some (dirs, files) =>
           match fuel with
           | O => (w, OutOfFuel)
           | S k =>
               (body top dirs files;;
                for_each dirs (λ d, walk k (join top [d]) body)) w
           end
       end.

(** No directory lies deeper than the longest path of the file system. *)
Definition depth_bound (m : filesystem) : nat :=
  S (max_list ((λ kv, length kv.1) <$> map_to_list m)).

Definition os_walk (top : path)
    (body : path → list string → list string → M unit) : M unit :=
  λ w, walk (depth_bound (fs w)) top body w.

(** ** compute_md5 *)

(** [for chunk in iter(lambda: f.read(4096), b""): hash_md5.update(chunk)] on
    the bytes still unread. *)
Fixpoint read_chunks (fuel : nat) (h : MD5.md5) (unread : list byte)
  : MD5.md5 :=
  match fuel with
  | O => h
  | S k =>
      match take 4096 unread with
      | [] => h
      | chunk => read_chunks k (MD5.update h chunk) (drop 4096 unread)
      end
  end.

Definition compute_md5 (file_path : path) : M string :=
  let hash_md5 := MD5.new in
  h ← try_except
         (data ← open_read file_path;
          ret (read_chunks (S (length data)) hash_md5 data))
         (λ e, match e with
               | FileNotFoundError =>
                   logging_error (Md5NotFound file_path) ;; ret hash_md5
               | _ => logging_error (Md5Error file_path e) ;; ret hash_md5
               end);
  ret (MD5.hexdigest h).

(** ** sync_folders *)

(** The body of [for dir_name in dirs] of the forward pass. *)
Definition mirror_dir (replica_root : path) (dir_name : string) : M unit :=
  let replica_dir := join replica_root [dir_name] in
  present ← os_path_exists replica_dir;
  if negb present then
    try_except
      (os_makedirs replica_dir ;; logging_info (DirCreated replica_dir))
      (λ e, logging_error (CreateError replica_dir e))
  else ret tt.

(** The body of [for file_name in files] of the forward pass. *)
Definition mirror_file (root replica_root : path) (file_name : string)
  : M unit :=
  let source_file := join root [file_name] in
  let replica_file := join replica_root [file_name] in
  try_except
    (present ← os_path_exists replica_file;
     differ ← (if negb present then ret true
                else d1 ← compute_md5 source_file;
                     d2 ← compute_md5 replica_file;
                     ret (negb (String.eqb d1 d2))) : M bool;
     if differ : bool then
       shutil_copy2 source_file replica_file;;
       logging_info (Synchronizing source_file replica_file)
     else ret tt)
    (λ e, logging_error (SyncError source_file replica_file e)).

(** The body of [for file_name in files] of the reverse pass. *)
Definition prune_file (root source_root : path) (file_name : string)
  : M unit :=
  let replica_file := join root [file_name] in
  let source_file := join source_root [file_name] in
  present ← os_path_exists source_file;
  if negb present then
    try_except
      (os_remove replica_file ;; logging_info (FileRemoved replica_file))
      (λ e, logging_error (RemoveFileError replica_file e))
  else ret tt.

(** The body of [for dir_name in dirs] of the reverse pass. *)
Definition prune_dir (root source_root : path) (dir_name : string)
  : M unit :=
  let replica_dir := join root [dir_name] in
  let source_dir := join source_root [dir_name] in
  present ← os_path_exists source_dir;
  if negb present then
    try_except
      (shutil_rmtree replica_dir ;; logging_info (DirRemoved replica_dir))
      (λ e, logging_error (RemoveDirError replica_dir e))
  else ret tt.

(** The replica root is created when it is missing; a failure is logged and
    raised again. *)
Definition ensure_replica (replica : path) : M unit :=
  present ← os_path_exists replica;
  if negb present then
    try_except
      (os_makedirs replica ;; logging_info (ReplicaCreated replica))
      (λ e, match e with
            | PermissionError =>
                logging_error (CreatePermissionDenied replica) ;; raise e
            | _ => logging_error (CreateError replica e) ;; raise e
            end)
  else ret tt.

Definition forward_body (source replica : path)
    (root : path) (dirs files : list string) : M unit :=
  let relative_path := relpath root source in
  let replica_root := join replica relative_path in
  for_each dirs (mirror_dir replica_root);;
  for_each files (mirror_file root replica_root).

Definition reverse_body (source replica : path)
    (root : path) (dirs files : list string) : M unit :=
  let relative_path := relpath root replica in
  let source_root := join source relative_path in
  for_each files (prune_file root source_root);;
  for_each dirs (prune_dir root source_root).

Definition forward_pass (source replica : path) : M unit :=
  os_walk source (forward_body source replica).

Definition reverse_pass (source replica : path) : M unit :=
  os_walk replica (reverse_body source replica).

Definition sync_folders (source replica : path) : M unit :=
  ensure_replica replica;;
  forward_pass source replica;;
  reverse_pass source replica.

(** ** setup_logging and main *)

(** A path name as the command line gives it: absolute, or relative to the
    working directory. [Relative []] is the empty string. *)
Inductive pathname :=
| Absolute (p : path)
| Relative (p : path).

(** [os.path.dirname] of a path name: a bare file name has the empty string
    as its directory part, and the root is its own. *)
Definition name_dirname (n : pathname) : pathname :=
  match n with
  | Absolute p => Absolute (dirname p)
  | Relative p => Relative (dirname p)
  end.

Definition is_empty_name (n : pathname) : bool :=
  match n with
  | Relative [] => true
  | _ => false
  end.

(** The absolute path a name leads to from the working directory [cwd]; the
    empty string leads nowhere. *)
Definition resolve (cwd : path) (n : pathname) : option path :=
  match n with
  | Absolute p => Some p
  | Relative [] => None
  | Relative p => Some (cwd ++ p)
  end.

(** [os.path.abspath]: the empty string gives the working directory. *)
Definition abspath (cwd : path) (n : pathname) : path :=
  match n with
  | Absolute p => p
  | Relative p => cwd ++ p
  end.

(** [os.path.exists], [os.path.isdir] and [os.mkdir] on a path name: the
    empty string does not exist, and a system call on it fails with
    ENOENT. *)
Definition name_exists (cwd : path) (m : filesystem) (n : pathname) : bool :=
  match resolve cwd n with
  | Some p => path_exists m p
  | None => false
  end.

Definition name_isdir (cwd : path) (m : filesystem) (n : pathname) : bool :=
  match resolve cwd n with
  | Some p => match m !! p with Some IDir => true | _ => false end
  | None => false
  end.

Definition name_mkdir (cwd : path) (m : filesystem) (n : pathname)
  : exn + filesystem :=
  match resolve cwd n with
  | Some p => mkdir m p
  | None => inl FileNotFoundError
  end.

(** The last step of [os.makedirs(name, exist_ok=True)]: the [OSError] of
    [mkdir] is swallowed when [name] is a directory. *)
Definition mkdir_exist_ok (cwd : path) (m : filesystem) (n : pathname)
  : exn + filesystem :=
  match name_mkdir cwd m n with
  | inl e => if name_isdir cwd m n then inr m else inl e
  | inr m' => inr m'
  end.

(** [os.makedirs(name, exist_ok=True)]: as [makedirs_rev], on the reversed
    components of a name built with [mk]; the parents are made only when
    the head of the name is not empty and does not exist. *)
Fixpoint makedirs_exist_ok_rev (cwd : path) (mk : path → pathname)
    (m : filesystem) (rp : list string) : exn + filesystem :=
  match rp with
  | [] => mkdir_exist_ok cwd m (mk [])
  | _ :: rhead =>
      let head := mk (rev rhead) in
      let parents :=
        if negb (is_empty_name head) && negb (name_exists cwd m head) then
          match makedirs_exist_ok_rev cwd mk m rhead with
          | inl FileExistsError => inr m
          | r => r
          end
        else inr m in
      match parents with
      | inl e => inl e
      | inr m1 => mkdir_exist_ok cwd m1 (mk (rev rp))
      end
  end.

Definition makedirs_exist_ok (cwd : path) (m : filesystem) (n : pathname)
  : exn + filesystem :=
  match n with
  | Absolute p => makedirs_exist_ok_rev cwd Absolute m (rev p)
  | Relative p => makedirs_exist_ok_rev cwd Relative m (rev p)
  end.

(** [open(p, "a")]: an existing file is kept as it is, a missing one is
    created empty, with the time [now]. *)
Definition open_a (now : Z) (m : filesystem) (p : path) : exn + filesystem :=
  match m !! p with
  | Some IDir => inl IsADirectoryError
  | Some (IFile f) => if writable f then inr m else inl PermissionError
  | None =>
      match p with
      | [] => inl FileNotFoundError
      | _ =>
          match m !! dirname p with
          | Some IDir => inr (<[p := IFile (File [] now true true)]> m)
          | Some (IFile _) => inl NotADirectoryError
          | None => inl (errno_missing m p)
          end
      end
  end.

(** [logging.FileHandler(log_file)]: the absolute path of the name is opened
    for appending at once. *)
Definition file_handler (cwd : path) (now : Z) (m : filesystem)
    (n : pathname) : exn + filesystem :=
  open_a now m (abspath cwd n).

(** The messages [setup_logging] and [main] log, all at level INFO. *)
Inductive main_message :=
| LoggingInitialized (log_file : pathname)
| Starting (source replica : path) (interval : Z)
| SyncComplete.

(** A line of the log of the whole program. *)
Inductive log_line :=
| OfMain (msg : main_message)
| OfSync (lv : level) (msg : message).

(** What [setup_logging] prints. *)
Inductive printed :=
| LogDirCreated (d : pathname)
| LogDirDenied (d : pathname)
| LogDirError (d : pathname) (e : exn)
| LoggingError (e : exn).

(** The state of the program: the file system, the log, the standard output
    and the mutating calls the passes have made. The lines the log handler
    appends to the log file are kept in [journal]; the file in [pfs] does
    not grow. *)
Record process := Process {
  pfs : filesystem;
  journal : list log_line;
  console : list printed;
  sync_calls : list call
}.

Definition print_line (p : process) (line : printed) : process :=
  Process (pfs p) (journal p) (console p ++ [line]) (sync_calls p).
Definition note (p : process) (msg : main_message) : process :=
  Process (pfs p) (journal p ++ [OfMain msg]) (console p) (sync_calls p).
Definition set_pfs (p : process) (m : filesystem) : process :=
  Process m (journal p) (console p) (sync_calls p).

(** [setup_logging(log_file)] in the working directory [cwd] at time
    [now]. *)
Definition setup_logging (cwd : path) (now : Z) (log_file : pathname)
    (p : process) : process * outcome unit :=
  let log_file_dir := name_dirname log_file in
  let prepared :=
    if negb (name_exists cwd (pfs p) log_file_dir) then
      match makedirs_exist_ok cwd (pfs p) log_file_dir with
      | inr m' =>
          (print_line (set_pfs p m') (LogDirCreated log_file_dir), Ret tt)
      | inl PermissionError =>
          (print_line p (LogDirDenied log_file_dir), Raise PermissionError)
      | inl e => (print_line p (LogDirError log_file_dir e), Raise e)
      end
    else (p, Ret tt) in
  match prepared with
  | (p1, Ret _) =>
      match file_handler cwd now (pfs p1) log_file with
      | inr m' => (note (set_pfs p1 m') (LoggingInitialized log_file), Ret tt)
      | inl e => (print_line p1 (LoggingError e), Raise e)
      end
  | r => r
  end.

(** One call of [sync_folders] from [main]: its log lines join the
    journal. *)
Definition run_pass (source replica : path) (p : process)
  : process * outcome unit :=
  let '(w, r) := sync_folders source replica
                   (World (pfs p) [] (sync_calls p)) in
  (Process (fs w) (journal p ++ ((λ e, OfSync e.1 e.2) <$> log w))
     (console p) (calls w), r).

(** How the program can end: an exception nothing catches, among them the
    [ValueError] of [time.sleep] on a negative number. *)
Inductive crash :=
| Uncaught (e : exn)
| SleepValueError.

(** What is known of a run after a bounded number of rounds: the loop is
    still going, the program has ended, or a walk has run out of fuel. *)
Inductive verdict :=
| Looping
| Crashed (c : crash)
| WalkOutOfFuel.

(** [while True: sync_folders(source, replica); logging.info(...);
    time.sleep(interval)], for at most [rounds] rounds. *)
Fixpoint main_loop (rounds : nat) (source replica : path) (interval : Z)
    (p : process) : process * verdict :=
  match rounds with
  | O => (p, Looping)
  | S k =>
      match run_pass source replica p with
      | (p1, Ret _) =>
          let p2 := note p1 SyncComplete in
          if (interval <? 0)%Z then (p2, Crashed SleepValueError)
          else main_loop k source replica interval p2
      | (p1, Raise e) => (p1, Crashed (Uncaught e))
      | (p1, OutOfFuel) => (p1, WalkOutOfFuel)
      end
  end.

(** [main], on the arguments [parse_arguments] returns. *)
Definition main (cwd : path) (now : Z) (source replica : path)
    (interval : Z) (log_file : pathname) (rounds : nat) (p : process)
  : process * verdict :=
  match setup_logging cwd now log_file p with
  | (p1, Ret _) =>
      main_loop rounds source replica interval
        (note p1 (Starting source replica interval))
  | (p1, Raise e) => (p1, Crashed (Uncaught e))
  | (p1, OutOfFuel) => (p1, WalkOutOfFuel)
  end.

(** The values [f.read(4096)] returns before the empty one, in order. *)
Fixpoint file_chunks (fuel : nat) (unread : list byte) : list (list byte) :=
  match fuel with
  | O => []
  | S k =>
      match take 4096 unread with
      | [] => []
      | chunk => chunk :: file_chunks k (drop 4096 unread)
      end
  end.

Definition is_hex_digit (c : ascii) : Prop :=
  c ∈ list_ascii_of_string "0123456789abcdef".

(** ** Vocabulary of the statements *)

(** The hash object [h] has been fed exactly the bytes [data]. *)
Definition holds (h : MD5.md5) (data : list byte) : Prop :=
  MD5.absorb MD5.chain_init data = (MD5.chaining h, MD5.pending h) ∧
  MD5.fed h = length data.

(** [open(p, "rb")] fails: nothing at [p], a directory, or a file without
    read permission. *)
Definition unreadable (m : filesystem) (p : path) : Prop :=
  match m !! p with
  | Some (IFile f) => readable f = false
  | _ => True
  end.

(** The message [compute_md5] logs when [open] raises [e]. *)
Definition md5_failure (p : path) (e : exn) : message :=
  match e with
  | FileNotFoundError => Md5NotFound p
  | _ => Md5Error p e
  end.

(** The digest of zero bytes. *)
Definition empty_digest : string := "d41d8cd98f00b204e9800998ecf8427e".

(** What [compute_md5 p] returns on file system [m]. *)
Definition digest_of (m : filesystem) (p : path) : string :=
  match open_rb m p with
  | inr f => MD5.md5_hex (content f)
  | inl _ => empty_digest
  end.

(** The world [compute_md5 p] leaves: one error more in the log when [open]
    fails. *)
Definition md5_logged (w : world) (p : path) : world :=
  match open_rb (fs w) p with
  | inr _ => w
  | inl e => add_log w ERROR (md5_failure p e)
  end.

(** The test of the forward pass: the replica file is absent or the digests
    differ. *)
Definition must_copy (m : filesystem) (source_file replica_file : path)
  : bool :=
  negb (path_exists m replica_file)
  || negb (String.eqb (digest_of m source_file) (digest_of m replica_file)).

(** The world after the two fingerprints of the comparison, when it is
    made. *)
Definition compared (w : world) (source_file replica_file : path) : world :=
  if path_exists (fs w) replica_file
  then md5_logged (md5_logged w source_file) replica_file
  else w.

(** The world after [shutil.copy2] and the log call that follows it. *)
Definition copied (w : world) (source_file replica_file : path) : world :=
  let w1 := add_call w (CallCopy2 source_file replica_file) in
  match copy2 (fs w) source_file replica_file with
  | inr m' => add_log (set_fs w1 m') INFO (Synchronizing source_file replica_file)
  | inl e => add_log w1 ERROR (SyncError source_file replica_file e)
  end.

(** A well-formed file system: the root is a directory, and whatever exists
    sits in a directory. *)
Definition wf (m : filesystem) : Prop :=
  m !! [] = Some IDir ∧ ∀ p x, is_Some (m !! (p ++ [x])) → m !! p = Some IDir.

(** Two directories neither of which lies inside the other. *)
Definition apart (a b : path) : Prop :=
  ¬ a `prefix_of` b ∧ ¬ b `prefix_of` a.




Section reverse_vocabulary.
Context (source replica : path).
Implicit Types m : filesystem.



End reverse_vocabulary.

Global Instance level_eq_dec : EqDecision level.
Proof. solve_decision. Defined.



Section forward_vocabulary.
Context (source replica : path).





End forward_vocabulary.


(** A check of [wf] that computes. *)
Definition wf_check (m : filesystem) : bool :=
  match m !! [] with Some IDir => true | _ => false end
  && forallb (λ kv : path * inode,
                match kv.1 with
                | [] => true
                | _ => match m !! dirname kv.1 with Some IDir => true | _ => false end
                end) (map_to_list m).

Section sync_vocabulary.
Context (source replica : path).

End sync_vocabulary.

Section frame_vocabulary.
Context (replica : path).



End frame_vocabulary.





(** The mutating call a log line reports, if it reports one: every [try]
    block of [sync_folders] makes one call and logs one line, at level INFO
    when the call returned and at level ERROR when it raised. *)
Definition reported (msg : message) : option call :=
  match msg with
  | Md5NotFound _ | Md5Error _ _ => None
  | ReplicaCreated p | CreatePermissionDenied p | CreateError p _
  | DirCreated p => Some (CallMakedirs p)
  | Synchronizing s d | SyncError s d _ => Some (CallCopy2 s d)
  | FileRemoved p | RemoveFileError p _ => Some (CallRemove p)
  | DirRemoved p | RemoveDirError p _ => Some (CallRmtree p)
  end.

(** From [w1] to [w2] the log has grown by lines that report, in order,
    exactly the calls made in between. *)
Definition audited (w1 w2 : world) : Prop :=
  ∃ new, log w2 = log w1 ++ new ∧
         calls w2 = calls w1 ++ omap (λ e, reported e.2) new.



(** ** Running the model on small trees *)

Local Open Scope string_scope.
Local Open Scope list_scope.

Definition bytes_of_string (s : string) : list byte := list_byte_of_string s.

Definition plain (s : string) : inode :=
  IFile (File (bytes_of_string s) 0 true true).

Definition boot (m : filesystem) : world := World m [] [].

Definition src : path := ["src"%string].
Definition rep : path := ["rep"%string].

(** The first scenario: [a/b.txt] under the source, no replica yet. *)
Definition fs_hello : filesystem :=
  list_to_map [([], IDir); (["src"], IDir); (["src"; "a"], IDir);
               (["src"; "a"; "b.txt"], plain "hello")].

(** A source with one unreadable and one readable file, an empty replica. *)
Definition fs_unreadable : filesystem :=
  list_to_map [([], IDir); (src, IDir); (rep, IDir);
               (src ++ ["f"], IFile (File (bytes_of_string "x") 0 false true));
               (src ++ ["g"], plain "x")].

(** An empty source file whose replica counterpart cannot be read. *)
Definition fs_degraded : filesystem :=
  list_to_map [([], IDir); (src, IDir); (rep, IDir);
               (src ++ ["f"], plain "");
               (rep ++ ["f"], IFile (File (bytes_of_string "x") 0 false true))].


(** The replica holds one file more than the source. *)
Definition fs_extra : filesystem :=
  list_to_map [([], IDir); (src, IDir); (src ++ ["a"], IDir);
               (src ++ ["a"; "b.txt"], plain "hello");
               (rep, IDir); (rep ++ ["a"], IDir);
               (rep ++ ["a"; "b.txt"], plain "hello");
               (rep ++ ["a"; "c.txt"], plain "x")].

(** No source at all, a replica with a file and a directory. *)
Definition fs_no_source : filesystem :=
  list_to_map [([], IDir); (rep, IDir); (rep ++ ["a"], IDir);
               (rep ++ ["a"; "b.txt"], plain "hello");
               (rep ++ ["c.txt"], plain "x")].

(** Two distinct 128-byte messages with the same MD5 digest (Wang and Yu,
    2004). *)
Definition collision_a : list byte :=
  [xd1; x31; xdd; x02; xc5; xe6; xee; xc4; x69; x3d; x9a; x06;
   x98; xaf; xf9; x5c; x2f; xca; xb5; x87; x12; x46; x7e; xab;
   x40; x04; x58; x3e; xb8; xfb; x7f; x89; x55; xad; x34; x06;
   x09; xf4; xb3; x02; x83; xe4; x88; x83; x25; x71; x41; x5a;
   x08; x51; x25; xe8; xf7; xcd; xc9; x9f; xd9; x1d; xbd; xf2;
   x80; x37; x3c; x5b; xd8; x82; x3e; x31; x56; x34; x8f; x5b;
   xae; x6d; xac; xd4; x36; xc9; x19; xc6; xdd; x53; xe2; xb4;
   x87; xda; x03; xfd; x02; x39; x63; x06; xd2; x48; xcd; xa0;
   xe9; x9f; x33; x42; x0f; x57; x7e; xe8; xce; x54; xb6; x70;
   x80; xa8; x0d; x1e; xc6; x98; x21; xbc; xb6; xa8; x83; x93;
   x96; xf9; x65; x2b; x6f; xf7; x2a; x70]%byte.

Definition collision_b : list byte :=
  [xd1; x31; xdd; x02; xc5; xe6; xee; xc4; x69; x3d; x9a; x06;
   x98; xaf; xf9; x5c; x2f; xca; xb5; x07; x12; x46; x7e; xab;
   x40; x04; x58; x3e; xb8; xfb; x7f; x89; x55; xad; x34; x06;
   x09; xf4; xb3; x02; x83; xe4; x88; x83; x25; xf1; x41; x5a;
   x08; x51; x25; xe8; xf7; xcd; xc9; x9f; xd9; x1d; xbd; x72;
   x80; x37; x3c; x5b; xd8; x82; x3e; x31; x56; x34; x8f; x5b;
   xae; x6d; xac; xd4; x36; xc9; x19; xc6; xdd; x53; xe2; x34;
   x87; xda; x03; xfd; x02; x39; x63; x06; xd2; x48; xcd; xa0;
   xe9; x9f; x33; x42; x0f; x57; x7e; xe8; xce; x54; xb6; x70;
   x80; x28; x0d; x1e; xc6; x98; x21; xbc; xb6; xa8; x83; x93;
   x96; xf9; x65; xab; x6f; xf7; x2a; x70]%byte.



(** An empty source directory, a replica file of the same name. *)
Definition fs_kind : filesystem :=
  list_to_map [([], IDir); (src, IDir); (rep, IDir);
               (src ++ ["d"], IDir); (rep ++ ["d"], plain "x")].

(** An empty directory under the source, an empty replica. *)
Definition fs_empty_dir : filesystem :=
  list_to_map [([], IDir); (src, IDir); (rep, IDir); (src ++ ["dir"], IDir)].

(** A file sits where a parent of the replica root would have to be. *)
Definition fs_blocked : filesystem :=
  list_to_map [([], IDir); (src, IDir); (src ++ ["f"], plain "x");
               (["x"], plain "")].


(** The program at its start on a given file system. *)
Definition start (m : filesystem) : process := Process m [] [] [].


(** ** Tactics *)

Ltac world_simpl := unfold add_log, set_fs, add_call; simpl.

Ltac unfold_M :=
  unfold mbind, M_bind, bind, mret, M_ret, ret, raise, try_except,
    logging_info, logging_error, os_path_exists, syscall, open_read.

(** * The scenarios of the specification *)

Example scenario_first_copy :
  sync_folders src rep (boot fs_hello)
  = (World (<[rep ++ ["a"; "b.txt"] := plain "hello"]>
              (<[rep ++ ["a"] := IDir]> (<[rep := IDir]> fs_hello)))
       [(INFO, ReplicaCreated rep); (INFO, DirCreated (rep ++ ["a"]));
        (INFO, Synchronizing (src ++ ["a"; "b.txt"]) (rep ++ ["a"; "b.txt"]))]
       [CallMakedirs rep; CallMakedirs (rep ++ ["a"]);
        CallCopy2 (src ++ ["a"; "b.txt"]) (rep ++ ["a"; "b.txt"])],
     Ret tt).
Proof. vm_compute. reflexivity. Qed.

Example scenario_extra_file :
  sync_folders src rep (boot fs_extra)
  = (World (delete (rep ++ ["a"; "c.txt"]) fs_extra)
       [(INFO, FileRemoved (rep ++ ["a"; "c.txt"]))]
       [CallRemove (rep ++ ["a"; "c.txt"])],
     Ret tt).
Proof. vm_compute. reflexivity. Qed.

Example scenario_empty_dir :
  sync_folders src rep (boot fs_empty_dir)
  = (World (<[rep ++ ["dir"] := IDir]> fs_empty_dir)
       [(INFO, DirCreated (rep ++ ["dir"]))]
       [CallMakedirs (rep ++ ["dir"])],
     Ret tt).
Proof. vm_compute. reflexivity. Qed.

Example scenario_unreadable :
  sync_folders src rep (boot fs_unreadable)
  = (World (<[rep ++ ["g"] := plain "x"]> fs_unreadable)
       [(INFO, Synchronizing (src ++ ["g"]) (rep ++ ["g"]));
        (ERROR, SyncError (src ++ ["f"]) (rep ++ ["f"]) PermissionError)]
       [CallCopy2 (src ++ ["g"]) (rep ++ ["g"]);
        CallCopy2 (src ++ ["f"]) (rep ++ ["f"])],
     Ret tt).
Proof. vm_compute. reflexivity. Qed.

Example scenario_no_source :
  sync_folders src rep (boot fs_no_source)
  = (World (list_to_map [([], IDir); (rep, IDir)])
       [(INFO, FileRemoved (rep ++ ["c.txt"])); (INFO, DirRemoved (rep ++ ["a"]))]
       [CallRemove (rep ++ ["c.txt"]); CallRmtree (rep ++ ["a"])],
     Ret tt).
Proof. vm_compute. reflexivity. Qed.

(** A replica file where the source has an empty directory is left in
    place, and nothing is logged. *)
Example scenario_file_for_directory :
  sync_folders src rep (boot fs_kind) = (boot fs_kind, Ret tt).
Proof. vm_compute. reflexivity. Qed.

(** * Facts about the hash object *)

Example md5_empty : MD5.md5_hex [] = "d41d8cd98f00b204e9800998ecf8427e".
Proof. vm_compute. reflexivity. Qed.

Example md5_abc :
  MD5.md5_hex (bytes_of_string "abc") = "900150983cd24fb0d6963f7d28e17f72".
Proof. vm_compute. reflexivity. Qed.

Example md5_long :
  MD5.md5_hex (bytes_of_string
     "12345678901234567890123456789012345678901234567890123456789012345678901234567890")
  = "57edf4a22be3c955ac49da2e2107b67a".
Proof. vm_compute. reflexivity. Qed.



Section md5_facts.
Import MD5.

Lemma absorb_fuel_enough n k st data :
  (length data ≤ n)%nat → (length data ≤ k)%nat →
  absorb_fuel n st data = absorb_fuel k st data.
Proof.
  revert k st data. induction n as [|n IH]; intros k st data Hn Hk.
  - destruct data; [|simpl in Hn; lia]. by destruct k.
  - simpl. destruct (Nat.ltb_spec (length data) 64) as [Hlt|Hge].
    + destruct k; simpl; [done|].
      by destruct (Nat.ltb_spec (length data) 64); [|lia].
    + destruct k as [|k]; [lia|]. simpl.
      destruct (Nat.ltb_spec (length data) 64); [lia|].
      apply IH; rewrite length_drop; lia.
Qed.

Lemma absorb_unfold st data :
  absorb st data =
    if (length data <? 64)%nat then (st, data)
    else absorb (compress st (take 64 data)) (drop 64 data).
Proof.
  unfold absorb at 1. destruct data as [|b data]; [done|].
  cbn [length absorb_fuel].
  destruct (Nat.ltb_spec (S (length data)) 64); [done|].
  apply absorb_fuel_enough; rewrite length_drop; simpl; lia.
Qed.

Lemma absorb_short st data :
  (length data < 64)%nat → absorb st data = (st, data).
Proof.
  intros H. rewrite absorb_unfold.
  by destruct (Nat.ltb_spec (length data) 64); [|lia].
Qed.

(** Feeding [l1] and then [l2] is feeding [l1 ++ l2]. *)
Lemma absorb_app l1 l2 st :
  absorb st (l1 ++ l2) = absorb (absorb st l1).1 ((absorb st l1).2 ++ l2).
Proof.
  remember (length l1) as n eqn:Hn. revert l1 st Hn.
  induction n as [n IH] using lt_wf_ind; intros l1 st ->.
  destruct (decide (length l1 < 64)%nat) as [Hlt|Hge].
  - by rewrite (absorb_short st l1).
  - rewrite (absorb_unfold st (l1 ++ l2)), (absorb_unfold st l1).
    rewrite length_app.
    destruct (Nat.ltb_spec (length l1 + length l2) 64); [lia|].
    destruct (Nat.ltb_spec (length l1) 64); [lia|].
    rewrite take_app_le, drop_app_le by lia.
    eapply IH; [|done]. rewrite length_drop. lia.
Qed.

Lemma absorb_rest_short st data : (length (absorb st data).2 < 64)%nat.
Proof.
  remember (length data) as n eqn:Hn. revert data st Hn.
  induction n as [n IH] using lt_wf_ind; intros data st ->.
  rewrite absorb_unfold.
  destruct (Nat.ltb_spec (length data) 64); [done|].
  eapply IH; [|done]. rewrite length_drop. lia.
Qed.

Lemma holds_new : holds new [].
Proof. done. Qed.

Lemma holds_update h data chunk :
  holds h data → holds (update h chunk) (data ++ chunk).
Proof.
  intros [Habs Hfed]. unfold holds, update.
  rewrite (absorb_app data chunk), Habs. simpl.
  destruct (absorb (chaining h) (pending h ++ chunk)) as [st rest].
  simpl. by rewrite length_app, Hfed.
Qed.

Lemma holds_hexdigest h data : holds h data → hexdigest h = md5_hex data.
Proof.
  intros [Habs Hfed]. unfold hexdigest, md5_hex.
  by rewrite (absorb_app data), Habs, Hfed.
Qed.

Lemma holds_fold chunks h data :
  holds h data → holds (fold_left update chunks h) (data ++ concat chunks).
Proof.
  revert h data. induction chunks as [|c chunks IH]; intros h data Hh; simpl.
  - by rewrite app_nil_r.
  - rewrite app_assoc. by apply IH, holds_update.
Qed.

Lemma length_le_bytes n z : length (le_bytes n z) = n.
Proof. revert z. induction n; intros; simpl; auto. Qed.

Lemma length_string_of_list_ascii l :
  String.length (string_of_list_ascii l) = length l.
Proof. induction l; simpl; auto. Qed.

Lemma length_hex_of_chain st : String.length (hex_of_chain st) = 32%nat.
Proof.
  unfold hex_of_chain, digest_bytes.
  rewrite length_string_of_list_ascii.
  by destruct st.
Qed.

Lemma hex_digit_ok n : is_hex_digit (hex_digit n).
Proof.
  unfold is_hex_digit, hex_digit.
  set (tbl := [_; _; _; _; _; _; _; _; _; _; _; _; _; _; _; _]%char).
  change (list_ascii_of_string "0123456789abcdef") with tbl.
  destruct (nth_in_or_default (Z.to_nat n) tbl "0"%char) as [Hin | ->].
  - by apply list_elem_of_In.
  - subst tbl. set_solver.
Qed.

Lemma hex_of_chain_digits st :
  Forall is_hex_digit (list_ascii_of_string (hex_of_chain st)).
Proof.
  unfold hex_of_chain. rewrite list_ascii_of_string_of_list_ascii.
  apply Forall_concat, Forall_map, Forall_forall. intros b _.
  unfold hex_byte. apply Forall_cons_2; [apply hex_digit_ok|].
  apply Forall_cons_2; [apply hex_digit_ok|]. apply Forall_nil_2.
Qed.
End md5_facts.

Section read_loop.
Import MD5.

Lemma take_nil_inv {A} n (l : list A) : (0 < n)%nat → take n l = [] → l = [].
Proof. destruct n; [lia|]. by destruct l. Qed.

Lemma read_chunks_fold fuel h unread :
  read_chunks fuel h unread = fold_left update (file_chunks fuel unread) h.
Proof.
  revert h unread. induction fuel as [|k IH]; intros h unread; simpl; [done|].
  destruct (take 4096 unread) eqn:E; [done|]. simpl. apply IH.
Qed.

Lemma concat_file_chunks fuel unread :
  (length unread < fuel)%nat → concat (file_chunks fuel unread) = unread.
Proof.
  revert unread. induction fuel as [|k IH]; intros unread Hlen; [lia|].
  simpl. destruct (take 4096 unread) as [|b chunk] eqn:E.
  - apply take_nil_inv in E; [by subst|lia].
  - simpl. rewrite IH.
    + transitivity (take 4096 unread ++ drop 4096 unread);
        [by rewrite E | apply take_drop].
    + rewrite length_drop. destruct unread; [done|]. simpl in *. lia.
Qed.

(** Every chunk is full, except possibly the last one, which is not
    empty. *)
Lemma file_chunks_sizes fuel unread i c :
  file_chunks fuel unread !! i = Some c →
  (0 < length c ≤ 4096)%nat ∧
  (S i < length (file_chunks fuel unread) → length c = 4096%nat).
Proof.
  revert unread i. induction fuel as [|k IH]; intros unread i; [done|].
  simpl. destruct (take 4096 unread) as [|b chunk] eqn:E; [done|].
  destruct i as [|i]; simpl.
  - intros [= <-]. rewrite <- E, length_take. split.
    + assert (length (take 4096 unread) ≠ 0)%nat by (by rewrite E).
      rewrite length_take in *. lia.
    + intros Hmore. destruct k; simpl in Hmore; [lia|].
      destruct (take 4096 (drop 4096 unread)) eqn:E2; simpl in Hmore; [lia|].
      assert (length (drop 4096 unread) ≠ 0)%nat.
      { intros H0. apply nil_length_inv in H0. by rewrite H0 in E2. }
      rewrite length_drop in *. lia.
  - intros Hc. destruct (IH _ _ Hc) as [? Hfull]. split; [done|].
    intros ?. apply Hfull. lia.
Qed.
End read_loop.

(** * Facts about the file system *)

Section paths.
Implicit Types p q r k : path.

Lemma app_snoc_inv p q (x y : string) : p ++ [x] = q ++ [y] → p = q ∧ x = y.
Proof. intros H. apply app_inj_tail in H. done. Qed.

Lemma prefix_snoc_inv p q (x : string) :
  p `prefix_of` q ++ [x] → p `prefix_of` q ∨ p = q ++ [x].
Proof.
  intros [r Hr]. destruct r as [|y r _] using rev_ind.
  - right. by rewrite app_nil_r in Hr.
  - left. rewrite app_assoc in Hr. apply app_snoc_inv in Hr as [-> _].
    by apply prefix_app_r.
Qed.


Lemma apart_sym a b : apart a b → apart b a.
Proof. intros [??]. by split. Qed.

End paths.

Section wf_facts.
Implicit Types m : filesystem.
Implicit Types p q r k : path.

Lemma wf_above m p r :
  wf m → r ≠ [] → is_Some (m !! (p ++ r)) → m !! p = Some IDir.
Proof.
  intros [_ Hwf]. revert p. induction r as [|x r IH] using rev_ind; [done|].
  intros p _ Hk. rewrite app_assoc in Hk. apply Hwf in Hk.
  destruct (decide (r = [])) as [->|Hr].
  - by rewrite app_nil_r in Hk.
  - apply IH; [done|]. by rewrite Hk.
Qed.









End wf_facts.

(** * Facts about the primitives *)

Section primitives.
Implicit Types m : filesystem.
Implicit Types p q r k : path.

Lemma path_exists_true m p : path_exists m p = true ↔ is_Some (m !! p).
Proof. unfold path_exists. apply bool_decide_eq_true. Qed.

Lemma path_exists_false m p : path_exists m p = false ↔ m !! p = None.
Proof.
  unfold path_exists. rewrite bool_decide_eq_false.
  symmetry. apply eq_None_not_Some.
Qed.

Lemma dirname_snoc p (x : string) : dirname (p ++ [x]) = p.
Proof. apply removelast_last. Qed.


Lemma mkdir_inr m p m' :
  mkdir m p = inr m' →
  m !! p = None ∧ p ≠ [] ∧ m !! dirname p = Some IDir ∧ m' = <[p := IDir]> m.
Proof.
  unfold mkdir. destruct (m !! p); [done|]. destruct p as [|x p]; [done|].
  destruct (m !! dirname (x :: p)) as [[|]|]; try done.
  by intros [= <-].
Qed.

Lemma mkdir_blocked m p (x : string) f :
  m !! p = Some (IFile f) → ∃ e, mkdir m (p ++ [x]) = inl e.
Proof.
  intros Hp. unfold mkdir. destruct (m !! (p ++ [x])); [by eauto|].
  rewrite dirname_snoc, Hp. destruct (p ++ [x]) eqn:E; by eauto.
Qed.

Lemma makedirs_snoc m p (x : string) :
  is_Some (m !! p) → makedirs m (p ++ [x]) = mkdir m (p ++ [x]).
Proof.
  intros Hp. unfold makedirs. rewrite rev_app_distr. simpl.
  rewrite rev_involutive.
  by rewrite (proj2 (path_exists_true m p)).
Qed.

Lemma makedirs_snoc_missing m p (x : string) :
  m !! p = None →
  makedirs m (p ++ [x]) =
    match makedirs m p with
    | inl FileExistsError => mkdir m (p ++ [x])
    | inl e => inl e
    | inr m1 => mkdir m1 (p ++ [x])
    end.
Proof.
  intros Hp. unfold makedirs. rewrite rev_app_distr. simpl.
  rewrite rev_involutive.
  rewrite (proj2 (path_exists_false m p)) by done.
  by destruct (makedirs_rev m (rev p)) as [[]|].
Qed.

Lemma wf_insert_dir m p :
  wf m → p ≠ [] → m !! dirname p = Some IDir → m !! p = None →
  wf (<[p := IDir]> m).
Proof.
  intros [Hroot Hwf] Hp Hd Hnone. split.
  - by rewrite lookup_insert_ne.
  - intros p' x Hk. destruct (decide (p' ++ [x] = p)) as [<-|Hne].
    + rewrite dirname_snoc in Hd. rewrite lookup_insert_ne; [done|].
      intros Heq. apply (f_equal length) in Heq.
      rewrite length_app in Heq. simpl in Heq. lia.
    + rewrite lookup_insert_ne in Hk by done. apply Hwf in Hk.
      rewrite lookup_insert_ne; [done|]. congruence.
Qed.





(** [os.makedirs] on a well-formed file system: every directory on the way
    exists afterwards, and nothing that existed has changed. *)
Lemma makedirs_inr m p m' :
  wf m → makedirs m p = inr m' →
  wf m' ∧ (∀ q, q `prefix_of` p → m' !! q = Some IDir) ∧
  (∀ k v, m !! k = Some v → m' !! k = Some v) ∧
  (∀ k, ¬ k `prefix_of` p → m' !! k = m !! k).
Proof.
  revert m'. induction p as [|x p IH] using rev_ind; intros m' Hwf.
  { unfold makedirs. simpl. unfold mkdir. by rewrite (proj1 Hwf). }
  assert (∀ m1, wf m1 → (∀ q, q `prefix_of` p → m1 !! q = Some IDir) →
            (∀ k v, m !! k = Some v → m1 !! k = Some v) →
            (∀ k, ¬ k `prefix_of` p → m1 !! k = m !! k) →
            mkdir m1 (p ++ [x]) = inr m' →
            wf m' ∧ (∀ q, q `prefix_of` p ++ [x] → m' !! q = Some IDir) ∧
            (∀ k v, m !! k = Some v → m' !! k = Some v) ∧
            (∀ k, ¬ k `prefix_of` p ++ [x] → m' !! k = m !! k)) as Hlast.
  { intros m1 Hwf1 Hdirs Hkeep Hframe Hmk.
    apply mkdir_inr in Hmk as (Hnone & Hne & Hd & ->). split_and!.
    - by apply wf_insert_dir.
    - intros q [Hq | ->]%prefix_snoc_inv; [|by rewrite lookup_insert_eq].
      rewrite lookup_insert_ne; [by apply Hdirs|].
      intros <-. by apply prefix_snoc_not in Hq.
    - intros k v Hk. apply Hkeep in Hk.
      rewrite lookup_insert_ne; [done|]. congruence.
    - intros k Hk. rewrite lookup_insert_ne.
      + apply Hframe. intros Hpre. apply Hk. by apply prefix_app_r.
      + intros <-. by apply Hk. }
  destruct (m !! p) as [n|] eqn:Hp.
  - rewrite makedirs_snoc by (by rewrite Hp). intros Hmk.
    assert (m !! p = Some IDir) as Hpd.
    { apply mkdir_inr in Hmk as (_ & _ & Hd & _).
      by rewrite dirname_snoc in Hd. }
    apply (Hlast m); try done.
    intros q [r ->]. destruct (decide (r = [])) as [->|Hr].
    + by rewrite app_nil_r in Hpd.
    + apply (wf_above m q r); [done..|]. by rewrite Hpd.
  - rewrite makedirs_snoc_missing by done.
    destruct (makedirs m p) as [e|m1] eqn:Hmp.
    + destruct e; try done. intros Hmk.
      apply mkdir_inr in Hmk as (_ & _ & Hd & _).
      rewrite dirname_snoc in Hd. congruence.
    + destruct (IH m1 Hwf eq_refl) as (? & ? & ? & ?). by apply Hlast.
Qed.




End primitives.

(** * The steps of the program as equations *)

Section steps.
Import MD5.

Lemma md5_hex_nil : md5_hex [] = empty_digest.
Proof. vm_compute. reflexivity. Qed.

Lemma read_chunks_digest data :
  hexdigest (read_chunks (S (length data)) new data) = md5_hex data.
Proof.
  rewrite read_chunks_fold.
  rewrite (holds_hexdigest _ ([] ++ concat (file_chunks (S (length data)) data))).
  - by rewrite concat_file_chunks by lia.
  - apply holds_fold, holds_new.
Qed.

Lemma unreadable_open_rb m p : unreadable m p ↔ ∃ e, open_rb m p = inl e.
Proof.
  unfold unreadable, open_rb.
  destruct (m !! p) as [[f|]|]; [|split; by eauto..].
  destruct (readable f); split; try done; [by intros [??]|by eauto].
Qed.

(** [compute_md5] never raises: it returns the digest of the file, or logs
    one error and returns the digest of zero bytes. *)
Lemma compute_md5_eq p w :
  compute_md5 p w = (md5_logged w p, Ret (digest_of (fs w) p)).
Proof.
  unfold compute_md5, md5_logged, digest_of. unfold_M.
  destruct (open_rb (fs w) p) as [e|f].
  - assert (hexdigest new = empty_digest) as Hd.
    { rewrite (holds_hexdigest _ _ holds_new). apply md5_hex_nil. }
    destruct e; simpl; by rewrite Hd.
  - by rewrite read_chunks_digest.
Qed.

Lemma fs_md5_logged w p : fs (md5_logged w p) = fs w.
Proof. unfold md5_logged. by destruct (open_rb (fs w) p). Qed.

Lemma calls_md5_logged w p : calls (md5_logged w p) = calls w.
Proof. unfold md5_logged. by destruct (open_rb (fs w) p). Qed.

Lemma fs_compared w sf rf : fs (compared w sf rf) = fs w.
Proof.
  unfold compared. destruct (path_exists (fs w) rf); [|done].
  by rewrite !fs_md5_logged.
Qed.

Lemma calls_compared w sf rf : calls (compared w sf rf) = calls w.
Proof.
  unfold compared. destruct (path_exists (fs w) rf); [|done].
  by rewrite !calls_md5_logged.
Qed.

Lemma mirror_dir_eq rr x w :
  mirror_dir rr x w =
    if path_exists (fs w) (rr ++ [x]) then (w, Ret tt)
    else
      let w1 := add_call w (CallMakedirs (rr ++ [x])) in
      match makedirs (fs w) (rr ++ [x]) with
      | inr m' => (add_log (set_fs w1 m') INFO (DirCreated (rr ++ [x])), Ret tt)
      | inl e => (add_log w1 ERROR (CreateError (rr ++ [x]) e), Ret tt)
      end.
Proof.
  unfold mirror_dir, os_makedirs, join. unfold_M.
  destruct (path_exists (fs w) (rr ++ [x])); [done|]. simpl.
  by destruct (makedirs (fs w) (rr ++ [x])).
Qed.

Lemma mirror_file_eq root rr x w :
  mirror_file root rr x w =
    let w1 := compared w (root ++ [x]) (rr ++ [x]) in
    if must_copy (fs w) (root ++ [x]) (rr ++ [x])
    then (copied w1 (root ++ [x]) (rr ++ [x]), Ret tt)
    else (w1, Ret tt).
Proof.
  unfold mirror_file, shutil_copy2, join, must_copy, compared, copied.
  unfold mbind, M_bind, bind, try_except, os_path_exists.
  destruct (path_exists (fs w) (rr ++ [x])) eqn:Hex; simpl.
  - rewrite !compute_md5_eq. rewrite fs_md5_logged.
    unfold mret, M_ret, ret.
    destruct (String.eqb _ _); simpl; [done|].
    unfold syscall. rewrite !fs_md5_logged.
    by destruct (copy2 (fs w) (root ++ [x]) (rr ++ [x])).
  - unfold mret, M_ret, ret. simpl. unfold syscall.
    by destruct (copy2 (fs w) (root ++ [x]) (rr ++ [x])).
Qed.

Lemma prune_file_eq root sr x w :
  prune_file root sr x w =
    if path_exists (fs w) (sr ++ [x]) then (w, Ret tt)
    else
      let w1 := add_call w (CallRemove (root ++ [x])) in
      match remove (fs w) (root ++ [x]) with
      | inr m' => (add_log (set_fs w1 m') INFO (FileRemoved (root ++ [x])), Ret tt)
      | inl e => (add_log w1 ERROR (RemoveFileError (root ++ [x]) e), Ret tt)
      end.
Proof.
  unfold prune_file, os_remove, join. unfold_M.
  destruct (path_exists (fs w) (sr ++ [x])); [done|]. simpl.
  by destruct (remove (fs w) (root ++ [x])).
Qed.

Lemma prune_dir_eq root sr x w :
  prune_dir root sr x w =
    if path_exists (fs w) (sr ++ [x]) then (w, Ret tt)
    else
      let w1 := add_call w (CallRmtree (root ++ [x])) in
      match rmtree (fs w) (root ++ [x]) with
      | inr m' => (add_log (set_fs w1 m') INFO (DirRemoved (root ++ [x])), Ret tt)
      | inl e => (add_log w1 ERROR (RemoveDirError (root ++ [x]) e), Ret tt)
      end.
Proof.
  unfold prune_dir, shutil_rmtree, join. unfold_M.
  destruct (path_exists (fs w) (sr ++ [x])); [done|]. simpl.
  by destruct (rmtree (fs w) (root ++ [x])).
Qed.

Lemma ensure_replica_eq replica w :
  ensure_replica replica w =
    if path_exists (fs w) replica then (w, Ret tt)
    else
      let w1 := add_call w (CallMakedirs replica) in
      match makedirs (fs w) replica with
      | inr m' => (add_log (set_fs w1 m') INFO (ReplicaCreated replica), Ret tt)
      | inl e =>
          (add_log w1 ERROR
             (if decide (e = PermissionError)
              then CreatePermissionDenied replica
              else CreateError replica e),
           Raise e)
      end.
Proof.
  unfold ensure_replica, os_makedirs. unfold_M.
  destruct (path_exists (fs w) replica); [done|]. simpl.
  destruct (makedirs (fs w) replica) as [e|m']; [|done].
  by destruct e.
Qed.
End steps.

(** * Loops *)

Section loops.

(** A property every run of the bodies keeps is kept by the loops,
    whatever their outcome. *)
Lemma for_each_keeps {A} (I : world → Prop) (l : list A) body w :
  (∀ x w1, x ∈ l → I w1 → I (body x w1).1) → I w → I (for_each l body w).1.
Proof.
  revert w. induction l as [|x l IH]; intros w Hb HI; simpl; [done|].
  unfold mbind, M_bind, bind.
  pose proof (Hb x w ltac:(left) HI) as H1.
  destruct (body x w) as [w1 [[]| |]]; simpl in *; try done.
  apply IH; [|done]. intros y w2 Hy. apply Hb. by right.
Qed.

Lemma walk_keeps (I : world → Prop) (base : path) body fuel top w :
  (∀ root dirs files w1,
     base `prefix_of` root → I w1 → I (body root dirs files w1).1) →
  base `prefix_of` top → I w → I (walk fuel top body w).1.
Proof.
  intros Hb. revert top w. induction fuel as [|k IH]; intros top w Htop HI;
    simpl; destruct (scandir (fs w) top) as [[dirs files]|]; try done.
  unfold mbind, M_bind, bind.
  pose proof (Hb top dirs files w Htop HI) as H1.
  destruct (body top dirs files w) as [w1 [[]| |]]; simpl in *; try done.
  apply for_each_keeps; [|done].
  intros d w2 _ HI2. apply IH; [|done]. by apply prefix_app_r.
Qed.
End loops.

(** * The reverse pass *)

Section erased.
Implicit Types m : filesystem.






End erased.

Section reverse.
Context (source replica : path) (Hapart : apart source replica).
Implicit Types m : filesystem.
Implicit Types p q r k : path.













End reverse.

(** * The forward pass *)

Section errors.






Lemma open_rb_file m p f :
  m !! p = Some (IFile f) → readable f = true → open_rb m p = inr f.
Proof. unfold open_rb. by intros -> ->. Qed.

Lemma digest_of_file m p f :
  m !! p = Some (IFile f) → readable f = true →
  digest_of m p = MD5.md5_hex (content f).
Proof. intros. unfold digest_of. by erewrite open_rb_file. Qed.

Lemma md5_logged_file w p f :
  fs w !! p = Some (IFile f) → readable f = true → md5_logged w p = w.
Proof. intros. unfold md5_logged. by erewrite open_rb_file. Qed.



End errors.

Section forward.
Context (source replica : path) (Hapart : apart source replica).
Implicit Types m : filesystem.
Implicit Types p q r k : path.














End forward.

(** * Whole passes *)

Section passes.
Context (source replica : path).
Implicit Types m : filesystem.
Implicit Types p q r k : path.












Lemma sync_folders_unfold w :
  sync_folders source replica w =
    match ensure_replica replica w with
    | (w0, Ret _) =>
        match forward_pass source replica w0 with
        | (w1, Ret _) => reverse_pass source replica w1
        | (w1, Raise e) => (w1, Raise e)
        | (w1, OutOfFuel) => (w1, OutOfFuel)
        end
    | (w0, Raise e) => (w0, Raise e)
    | (w0, OutOfFuel) => (w0, OutOfFuel)
    end.
Proof.
  unfold sync_folders, mbind, M_bind, bind.
  by destruct (ensure_replica replica w) as [w0 [[]| |]].
Qed.




Lemma wf_check_ok m : wf_check m = true → wf m.
Proof.
  unfold wf_check. intros [Hroot Hall]%andb_true_iff. split.
  - by destruct (m !! []) as [[|]|].
  - intros p x [v Hk]. rewrite forallb_forall in Hall.
    assert (In (p ++ [x], v) (map_to_list m)) as Hin.
    { by apply list_elem_of_In, elem_of_map_to_list. }
    apply Hall in Hin. simpl in Hin. rewrite dirname_snoc in Hin.
    destruct (p ++ [x]) eqn:E; [by destruct p|].
    by destruct (m !! p) as [[|]|].
Qed.
End passes.

(** * What a pass can touch *)

Section frame.
Context (source replica : path).
Implicit Types m : filesystem.
Implicit Types p q r k : path.











End frame.

(** * The fingerprint *)

(** C8. A readable file is read in chunks of 4096 bytes until the end of the
    stream, every chunk is folded into the running hash, and the result is
    the MD5 digest of the whole content: 32 hexadecimal digits that depend on
    the content only. *)
Theorem compute_md5_readable w p f :
  fs w !! p = Some (IFile f) → readable f = true →
  compute_md5 p w =
    (w, Ret (MD5.hexdigest
               (fold_left MD5.update
                  (file_chunks (S (length (content f))) (content f)) MD5.new))) ∧
  concat (file_chunks (S (length (content f))) (content f)) = content f ∧
  (∀ i c, file_chunks (S (length (content f))) (content f) !! i = Some c →
     0 < length c ≤ 4096 ∧
     (S i < length (file_chunks (S (length (content f))) (content f)) →
      length c = 4096)) ∧
  MD5.hexdigest
    (fold_left MD5.update
       (file_chunks (S (length (content f))) (content f)) MD5.new)
    = MD5.md5_hex (content f) ∧
  String.length (MD5.md5_hex (content f)) = 32 ∧
  Forall is_hex_digit (list_ascii_of_string (MD5.md5_hex (content f))).
Proof.
  intros Hp Hr.
  assert (MD5.hexdigest (fold_left MD5.update
            (file_chunks (S (length (content f))) (content f)) MD5.new)
          = MD5.md5_hex (content f)) as Hd.
  { rewrite <- read_chunks_fold. apply read_chunks_digest. }
  split_and!.
  - rewrite compute_md5_eq, Hd.
    by rewrite (md5_logged_file w p f), (digest_of_file (fs w) p f).
  - apply concat_file_chunks. lia.
  - apply file_chunks_sizes.
  - done.
  - apply length_hex_of_chain.
  - apply hex_of_chain_digits.
Qed.

Lemma compute_md5_readable_witness :
  compute_md5 (src ++ ["a"; "b.txt"]) (boot fs_hello)
  = (boot fs_hello, Ret "5d41402abc4b2a76b9719d911017c592").
Proof.
  destruct (compute_md5_readable (boot fs_hello) (src ++ ["a"; "b.txt"])
              (File (bytes_of_string "hello") 0 true true))
    as (Hrun & _ & _ & Hd & _); [vm_compute; reflexivity|reflexivity|].
  rewrite Hrun, Hd. vm_compute. reflexivity.
Defined.

(** C4. When the path does not exist or cannot be read, [compute_md5] does
    not raise: it logs one error and returns the digest of zero bytes. Any
    two such paths therefore get the same digest, and the forward pass takes
    an unreadable source file and an unreadable replica file for identical:
    it copies nothing. *)
Theorem compute_md5_degraded w p :
  unreadable (fs w) p →
  (∃ e, open_rb (fs w) p = inl e ∧
        compute_md5 p w = (add_log w ERROR (md5_failure p e), Ret empty_digest)) ∧
  empty_digest = MD5.md5_hex [] ∧
  (∀ w' p', unreadable (fs w') p' →
            (compute_md5 p' w').2 = (compute_md5 p w).2) ∧
  (∀ root rr x,
     p = root ++ [x] → is_Some (fs w !! (rr ++ [x])) →
     unreadable (fs w) (rr ++ [x]) →
     must_copy (fs w) p (rr ++ [x]) = false ∧
     ∃ w', mirror_file root rr x w = (w', Ret tt) ∧
           fs w' = fs w ∧ calls w' = calls w).
Proof.
  intros Hp.
  assert (∀ w1 p1, unreadable (fs w1) p1 →
            ∃ e, open_rb (fs w1) p1 = inl e ∧
                 compute_md5 p1 w1
                 = (add_log w1 ERROR (md5_failure p1 e), Ret empty_digest))
    as Hdeg.
  { intros w1 p1 [e He]%unreadable_open_rb. exists e. split; [done|].
    rewrite compute_md5_eq. unfold md5_logged, digest_of. by rewrite He. }
  split_and!.
  - by apply Hdeg.
  - symmetry. apply md5_hex_nil.
  - intros w' p' Hp'. destruct (Hdeg w p Hp) as (e & _ & ->).
    by destruct (Hdeg w' p' Hp') as (e' & _ & ->).
  - intros root rr x -> Hex Hrr.
    assert (must_copy (fs w) (root ++ [x]) (rr ++ [x]) = false) as Hmust.
    { unfold must_copy, digest_of.
      apply unreadable_open_rb in Hp as [e ->].
      apply unreadable_open_rb in Hrr as [e' ->].
      by rewrite (proj2 (path_exists_true _ _)). }
    split; [done|]. rewrite mirror_file_eq, Hmust. simpl.
    eexists. split; [done|]. by rewrite fs_compared, calls_compared.
Qed.

Lemma compute_md5_degraded_witness :
  (compute_md5 (src ++ ["f"]) (boot fs_unreadable)).2 = Ret empty_digest.
Proof.
  destruct (compute_md5_degraded (boot fs_unreadable) (src ++ ["f"]))
    as ((e & _ & ->) & _); [vm_compute; reflexivity|reflexivity].
Defined.

(** * The forward pass, file by file *)

Lemma must_copy_spec m sf rf :
  must_copy m sf rf = true ↔
  m !! rf = None ∨ digest_of m sf ≠ digest_of m rf.
Proof.
  unfold must_copy. rewrite orb_true_iff, !negb_true_iff.
  rewrite path_exists_false. split; (intros [?|Hd]; [by left|right]).
  - intros Heq. apply String.eqb_eq in Heq. congruence.
  - apply not_true_is_false. intros Heq. by apply String.eqb_eq in Heq.
Qed.

(** C3, as the claim has it, fails on this input: the digests match, and yet
    the pass logs something for the file. *)
Lemma copy_decision_counterexample :
  path_exists fs_degraded (rep ++ ["f"]) = true ∧
  digest_of fs_degraded (src ++ ["f"]) = digest_of fs_degraded (rep ++ ["f"]) ∧
  log (mirror_file src rep "f" (boot fs_degraded)).1
  = [(ERROR, Md5Error (rep ++ ["f"]) PermissionError)] ∧
  log (mirror_file src rep "f" (boot fs_degraded)).1 ≠ log (boot fs_degraded).
Proof.
  rewrite mirror_file_eq. split_and!; [vm_compute; reflexivity..|].
  vm_compute. discriminate.
Qed.

(** C3, amended. For every source file the forward pass calls [copy2] on the
    replica counterpart exactly when that one is absent or the two digests
    that [compute_md5] returns differ. When they match nothing is copied and
    the file system stays as it is; no log line is written either when both
    files could be read. A copy onto an existing writable file overwrites it
    with the source file, modification time and permissions included. *)
Theorem copy_decision root rr x w :
  ∃ w', mirror_file root rr x w = (w', Ret tt) ∧
    (must_copy (fs w) (root ++ [x]) (rr ++ [x]) = true ↔
     fs w !! (rr ++ [x]) = None ∨
     digest_of (fs w) (root ++ [x]) ≠ digest_of (fs w) (rr ++ [x])) ∧
    (must_copy (fs w) (root ++ [x]) (rr ++ [x]) = true →
     calls w' = calls w ++ [CallCopy2 (root ++ [x]) (rr ++ [x])] ∧
     (∀ m', copy2 (fs w) (root ++ [x]) (rr ++ [x]) = inr m' →
            fs w' = m' ∧
            last (log w') = Some (INFO, Synchronizing (root ++ [x]) (rr ++ [x]))) ∧
     (∀ e, copy2 (fs w) (root ++ [x]) (rr ++ [x]) = inl e → fs w' = fs w)) ∧
    (must_copy (fs w) (root ++ [x]) (rr ++ [x]) = false →
     fs w' = fs w ∧ calls w' = calls w ∧
     (¬ unreadable (fs w) (root ++ [x]) → ¬ unreadable (fs w) (rr ++ [x]) →
      w' = w)) ∧
    (∀ f g, fs w !! (root ++ [x]) = Some (IFile f) → readable f = true →
            fs w !! (rr ++ [x]) = Some (IFile g) → writable g = true →
            root ++ [x] ≠ rr ++ [x] →
            copy2 (fs w) (root ++ [x]) (rr ++ [x])
            = inr (<[rr ++ [x] := IFile f]> (fs w))).
Proof.
  rewrite mirror_file_eq. simpl.
  exists (if must_copy (fs w) (root ++ [x]) (rr ++ [x])
          then copied (compared w (root ++ [x]) (rr ++ [x])) (root ++ [x]) (rr ++ [x])
          else compared w (root ++ [x]) (rr ++ [x])).
  split; [by destruct (must_copy _ _ _)|]. split_and!.
  - apply must_copy_spec.
  - intros ->. unfold copied. rewrite fs_compared.
    destruct (copy2 (fs w) (root ++ [x]) (rr ++ [x])) as [e|m']; world_simpl;
      rewrite ?fs_compared, ?calls_compared.
    + split_and!; [done| |done]. by intros m' [=].
    + split_and!; [done| |by intros e [=]]. intros m'' [= <-].
      split; [done|]. apply last_snoc.
  - intros ->. rewrite fs_compared, calls_compared. split_and!; [done..|].
    intros Hs Hr. unfold compared.
    destruct (path_exists (fs w) (rr ++ [x])); [|done].
    unfold md5_logged at 2.
    destruct (open_rb (fs w) (root ++ [x])) as [e|f] eqn:Ho.
    { destruct Hs. apply unreadable_open_rb. eauto. }
    unfold md5_logged. destruct (open_rb (fs w) (rr ++ [x])) as [e|g] eqn:Ho'; [|done].
    destruct Hr. apply unreadable_open_rb. eauto.
  - intros f g Hf Hrf Hg Hwg Hne. unfold copy2, open_rb, open_wb.
    rewrite Hg, Hf, Hrf, Hg, Hwg.
    by rewrite bool_decide_eq_false_2.
Qed.







(** * The replica root *)

Lemma sync_folders_first source replica w :
  sync_folders source replica w =
    match ensure_replica replica w with
    | (w0, Ret _) =>
        (forward_pass source replica;; reverse_pass source replica) w0
    | (w0, Raise e) => (w0, Raise e)
    | (w0, OutOfFuel) => (w0, OutOfFuel)
    end.
Proof.
  unfold sync_folders. unfold mbind at 1, M_bind at 1, bind at 1.
  by destruct (ensure_replica replica w) as [w0 [[]| |]].
Qed.

(** C6. When the replica root does not exist, [sync_folders] creates it
    together with every missing directory above it (nothing that existed
    changes) and goes on with the two passes; when the creation fails, the
    error is logged and raised again: the pass stops there, the file system
    untouched. *)
Theorem replica_root_setup source replica w :
  wf (fs w) → fs w !! replica = None →
  match makedirs (fs w) replica with
  | inr m' =>
      wf m' ∧
      (∀ q, q `prefix_of` replica → m' !! q = Some IDir) ∧
      (∀ k v, fs w !! k = Some v → m' !! k = Some v) ∧
      (∀ k, ¬ k `prefix_of` replica → m' !! k = fs w !! k) ∧
      sync_folders source replica w =
        (forward_pass source replica;; reverse_pass source replica)
          (add_log (set_fs (add_call w (CallMakedirs replica)) m')
             INFO (ReplicaCreated replica))
  | inl e =>
      ∃ msg, sync_folders source replica w =
               (add_log (add_call w (CallMakedirs replica)) ERROR msg, Raise e)
  end.
Proof.
  intros Hwf Hnone. rewrite sync_folders_first, ensure_replica_eq.
  rewrite (proj2 (path_exists_false _ _)) by done. simpl.
  destruct (makedirs (fs w) replica) as [e|m'] eqn:Hmk.
  - by eexists.
  - apply makedirs_inr in Hmk as (? & ? & ? & ?); done.
Qed.

Lemma replica_root_setup_witness :
  match makedirs (fs (boot fs_hello)) rep with
  | inr m' =>
      wf m' ∧
      (∀ q, q `prefix_of` rep → m' !! q = Some IDir) ∧
      (∀ k v, fs (boot fs_hello) !! k = Some v → m' !! k = Some v) ∧
      (∀ k, ¬ k `prefix_of` rep → m' !! k = fs (boot fs_hello) !! k) ∧
      sync_folders src rep (boot fs_hello) =
        (forward_pass src rep;; reverse_pass src rep)
          (add_log (set_fs (add_call (boot fs_hello) (CallMakedirs rep)) m')
             INFO (ReplicaCreated rep))
  | inl e =>
      ∃ msg, sync_folders src rep (boot fs_hello) =
               (add_log (add_call (boot fs_hello) (CallMakedirs rep)) ERROR msg,
                Raise e)
  end.
Proof.
  apply replica_root_setup.
  - apply wf_check_ok. vm_compute. reflexivity.
  - vm_compute. reflexivity.
Defined.

(** The failing branch on a concrete tree: a file in the way of the replica
    root. *)
Example replica_root_blocked :
  sync_folders src ["x"; "y"; "z"] (boot fs_blocked)
  = (World fs_blocked
       [(ERROR, CreateError ["x"; "y"; "z"] NotADirectoryError)]
       [CallMakedirs ["x"; "y"; "z"]],
     Raise NotADirectoryError).
Proof. vm_compute. reflexivity. Qed.

(** * Whole passes *)








(** The two messages differ and have the same digest. *)
Example md5_collision :
  collision_a ≠ collision_b ∧
  MD5.md5_hex collision_a = MD5.md5_hex collision_b ∧
  MD5.md5_hex collision_a = "79054025255fb1a26e4bc422aef54eb4".
Proof. split_and!; [discriminate|vm_compute; reflexivity..]. Qed.








(** * What a pass adds, what it removes *)

Section additive.
Context (source replica : path) (Hapart : apart source replica).
Implicit Types m : filesystem.
Implicit Types p q r k : path.






End additive.

(** * The log as an audit trail *)

Section audit.
Implicit Types w : world.

Lemma audited_refl w : audited w w.
Proof. exists []. by rewrite !app_nil_r. Qed.

Lemma audited_trans w1 w2 w3 : audited w1 w2 → audited w2 w3 → audited w1 w3.
Proof.
  intros (n1 & Hl1 & Hc1) (n2 & Hl2 & Hc2). exists (n1 ++ n2).
  rewrite Hl2, Hl1, Hc2, Hc1, omap_app. by rewrite !app_assoc.
Qed.

Lemma audited_line w lv msg m c :
  reported msg = Some c →
  audited w (add_log (set_fs (add_call w c) m) lv msg).
Proof. intros H. exists [(lv, msg)]. simpl. by rewrite H. Qed.

Lemma audited_error w msg c :
  reported msg = Some c → audited w (add_log (add_call w c) ERROR msg).
Proof. intros H. exists [(ERROR, msg)]. simpl. by rewrite H. Qed.

Lemma audited_md5_logged w p : audited w (md5_logged w p).
Proof.
  unfold md5_logged. destruct (open_rb _ _) as [e|f]; [|apply audited_refl].
  exists [(ERROR, md5_failure p e)]. split; [done|].
  destruct e; simpl; by rewrite app_nil_r.
Qed.

Lemma audited_compared w sf rf : audited w (compared w sf rf).
Proof.
  unfold compared. destruct (path_exists _ _); [|apply audited_refl].
  eapply audited_trans; apply audited_md5_logged.
Qed.

Lemma mirror_dir_audited rr x w : audited w (mirror_dir rr x w).1.
Proof.
  rewrite mirror_dir_eq. destruct (path_exists _ _); [apply audited_refl|].
  simpl. destruct (makedirs _ _); simpl.
  - by apply audited_error.
  - by apply audited_line.
Qed.

Lemma mirror_file_audited root rr x w : audited w (mirror_file root rr x w).1.
Proof.
  rewrite mirror_file_eq. simpl.
  pose proof (audited_compared w (root ++ [x]) (rr ++ [x])) as Hc.
  destruct (must_copy _ _ _); [|done]. simpl.
  eapply audited_trans; [exact Hc|]. unfold copied.
  destruct (copy2 _ _ _).
  - by apply audited_error.
  - by apply audited_line.
Qed.

Lemma prune_file_audited root sr x w : audited w (prune_file root sr x w).1.
Proof.
  rewrite prune_file_eq. destruct (path_exists _ _); [apply audited_refl|].
  simpl. destruct (remove _ _); simpl.
  - by apply audited_error.
  - by apply audited_line.
Qed.

Lemma prune_dir_audited root sr x w : audited w (prune_dir root sr x w).1.
Proof.
  rewrite prune_dir_eq. destruct (path_exists _ _); [apply audited_refl|].
  simpl. destruct (rmtree _ _); simpl.
  - by apply audited_error.
  - by apply audited_line.
Qed.

Lemma ensure_replica_audited replica w :
  audited w (ensure_replica replica w).1.
Proof.
  rewrite ensure_replica_eq. destruct (path_exists _ _); [apply audited_refl|].
  simpl. destruct (makedirs _ _) as [e|m']; simpl.
  - apply audited_error. by destruct (decide _).
  - by apply audited_line.
Qed.

(** Two loops one after the other, as in the bodies of the walks. *)
Lemma two_loops_keep (I : world → Prop) (l1 l2 : list string) b1 b2 w :
  (∀ x w1, I w1 → I (b1 x w1).1) → (∀ x w1, I w1 → I (b2 x w1).1) →
  I w → I ((for_each l1 b1;; for_each l2 b2) w).1.
Proof.
  intros H1 H2 HI. unfold mbind, M_bind, bind.
  pose proof (for_each_keeps I l1 b1 w (λ x w1 _, H1 x w1) HI) as Hw1.
  destruct (for_each l1 b1 w) as [w1 [[]| |]]; simpl in *; try done.
  apply for_each_keeps; [|done]. intros x w2 _. apply H2.
Qed.

Lemma forward_pass_audited source replica w :
  audited w (forward_pass source replica w).1.
Proof.
  unfold forward_pass, os_walk.
  apply (walk_keeps (audited w) []); [|apply prefix_nil|apply audited_refl].
  intros root dirs files w1 _ HI. unfold forward_body.
  apply two_loops_keep; [| |done]; intros x w2 H2;
    (eapply audited_trans; [exact H2|]).
  - apply mirror_dir_audited.
  - apply mirror_file_audited.
Qed.

Lemma reverse_pass_audited source replica w :
  audited w (reverse_pass source replica w).1.
Proof.
  unfold reverse_pass, os_walk.
  apply (walk_keeps (audited w) []); [|apply prefix_nil|apply audited_refl].
  intros root dirs files w1 _ HI. unfold reverse_body.
  apply two_loops_keep; [| |done]; intros x w2 H2;
    (eapply audited_trans; [exact H2|]).
  - apply prune_file_audited.
  - apply prune_dir_audited.
Qed.
End audit.

(** * Whole passes, entry by entry *)

Section whole_pass.
Context (source replica : path).
Implicit Types w : world.







End whole_pass.

(** * setup_logging *)

Section names.
Context (cwd : path).
Implicit Types m : filesystem.
Implicit Types p q d : path.












End names.

Section setup.
Context (cwd : path) (now : Z).
Implicit Types m : filesystem.
Implicit Types p : process.




End setup.

(** * The loop of main *)

Section main_loop.
Context (source replica : path).
Implicit Types w : world.
Implicit Types p : process.







End main_loop.

(** * Further properties of sync_folders *)

















(** X9. The log is a complete record of what a call of [sync_folders] did to
    the file system. Whatever the outcome, the log has only grown, and the
    mutating calls made ([os.makedirs], [shutil.copy2], [os.remove],
    [shutil.rmtree]) are, in order, exactly the calls the new log lines
    report, each with its path: no call goes unlogged, and no line reports
    a call that was not made. *)
Theorem log_reports_every_call source replica w :
  ∃ new,
    log (sync_folders source replica w).1 = log w ++ new ∧
    calls (sync_folders source replica w).1
    = calls w ++ omap (λ e, reported e.2) new.
Proof.
  change (audited w (sync_folders source replica w).1).
  rewrite sync_folders_unfold.
  pose proof (ensure_replica_audited replica w) as H0.
  destruct (ensure_replica replica w) as [w0 [[]| |]]; simpl in *; try done.
  pose proof (forward_pass_audited source replica w0) as H1.
  destruct (forward_pass source replica w0) as [w1 [[]| |]]; simpl in *;
    try (by eapply audited_trans).
  eapply audited_trans; [by eapply audited_trans|].
  apply reverse_pass_audited.
Qed.

(** * setup_logging and main *)

(** X10. A log file given as a bare file name stops the program at once. Its
    directory part is the empty string, which does not exist, and
    [os.makedirs] on the empty string raises [FileNotFoundError] even with
    [exist_ok=True]: [setup_logging] prints the error and raises it again,
    and [main] ends with that exception before logging is set up and before
    any pass has run, the file system untouched. *)
Theorem log_file_needs_directory cwd now source replica interval x rounds p :
  setup_logging cwd now (Relative [x]) p
  = (print_line p (LogDirError (Relative []) FileNotFoundError),
     Raise FileNotFoundError) ∧
  main cwd now source replica interval (Relative [x]) rounds p
  = (print_line p (LogDirError (Relative []) FileNotFoundError),
     Crashed (Uncaught FileNotFoundError)).
Proof. done. Qed.










